(** * Whisk Desktop native launcher ([scripts/launcher.c])

    A shallow embedding of the launcher's [main] and the properties of it
    that the specification states.  The launcher asks the platform for the
    path of its own executable, normalises it with [realpath], composes
    [<dirname>/launcher.sh] in a 4096-byte buffer and replaces the process
    image with [/bin/bash] running that script.

    Conventions.  A value of type [string] stands for the contents of a
    NUL-terminated C string (the bytes before the terminator).  The libc
    and platform calls the program makes are not part of the repository:
    the pure ones ([dirname], [snprintf], [perror]'s formatting) are written
    out after their POSIX descriptions, the ones that depend on the machine
    ([realpath], [execve], [strerror], the recorded image path) are fields
    of a [World].  The program is built for Darwin only (<mach-o/dyld.h>);
    where a statement needs the platform's limit on the length of a path
    it names [PATH_MAX]. *)

From Stdlib Require Import String Ascii ZArith List Lia.
From stdpp Require Import gmap strings list fin_maps.

Local Open Scope Z_scope.

(** ** C strings *)

Module CStr.

(** The byte 0x0A, written ["\n"] in the source. *)
Definition nl : string := String (ascii_of_nat 10) EmptyString.

Definition is_slash (c : ascii) : bool := Ascii.eqb c "/"%char.

Definition is_empty (s : string) : bool :=
  match s with EmptyString => true | String _ _ => false end.

(** The first [n] bytes of [s] (all of [s] when it is shorter). *)
Fixpoint str_take (n : nat) (s : string) : string :=
  match n, s with
  | O, _ => EmptyString
  | S _, EmptyString => EmptyString
  | S n', String c t => String c (str_take n' t)
  end.

(** Removes every trailing ['/']; a string of slashes becomes empty. *)
Fixpoint strip_trailing_slashes (s : string) : string :=
  match s with
  | EmptyString => EmptyString
  | String c t =>
      let t' := strip_trailing_slashes t in
      if is_slash c && is_empty t' then EmptyString else String c t'
  end.

(** Removes every trailing byte that is not ['/']: what is left is empty
    or ends in a slash. *)
Fixpoint strip_trailing_nonslashes (s : string) : string :=
  match s with
  | EmptyString => EmptyString
  | String c t =>
      let t' := strip_trailing_nonslashes t in
      if negb (is_slash c) && is_empty t' then EmptyString else String c t'
  end.

(** [dirname(3)], <libgen.h>, after the steps of its POSIX description:
    an empty path gives ["."], a path of slashes gives ["/"]; otherwise
    trailing slashes are removed, then the last component, then the
    slashes that separated it; no slash at all gives ["."], nothing left
    gives ["/"]. *)
Definition dirname (path : string) : string :=
  if is_empty path then "."%string
  else
    let p1 := strip_trailing_slashes path in
    if is_empty p1 then "/"%string
    else
      let d := strip_trailing_nonslashes p1 in
      if is_empty d then "."%string
      else
        let d' := strip_trailing_slashes d in
        if is_empty d' then "/"%string else d'.

(** [snprintf(buf, size, ...)] where [formatted] is the text the format
    and its arguments expand to: at most [size - 1] bytes are stored,
    followed by the terminator; with [size = 0] nothing is stored.  The
    result is the C string in [buf] afterwards. *)
Definition snprintf (buf : string) (size : nat) (formatted : string) : string :=
  match size with
  | O => buf
  | S n => str_take n formatted
  end.

(** The expansion of the format ["%s/launcher.sh"] at [dir]. *)
Definition fmt_script (dir : string) : string := dir +:+ "/launcher.sh".

(** What [perror(s)] writes for a non-empty [s]: the text, a colon and a
    space, the message of the current [errno], a newline. *)
Definition perror_text (s reason : string) : string :=
  s +:+ ": " +:+ reason +:+ nl.

End CStr.

(** ** The machine the program runs on *)

(** [errno] values. *)
Definition errno_t := Z.
Definition ENOENT : errno_t := 2.
Definition EACCES : errno_t := 13.

Inductive sysres (A : Type) : Type :=
| Ok (a : A)
| Err (e : errno_t).
Arguments Ok {A} a.
Arguments Err {A} e.

Record World : Type := {
  (** the path the loader recorded for the main executable *)
  image_path : string;
  (** [realpath(3)]: the canonical absolute path, or the error *)
  fs_realpath : string -> sysres string;
  (** whether a file exists at a path; the program never asks *)
  fs_exists : string -> bool;
  (** [execve(2)] of a file with an argument vector: [None] when the
      process image is replaced, the error otherwise *)
  sys_execve : string -> list string -> option errno_t;
  (** [strerror(3)] *)
  strerror : errno_t -> string
}.

(** What the program does to the outside, in order. *)
Inductive event : Type :=
| EvAlloc (b : nat) (s : string)       (* realpath returned a malloc'd block *)
| EvFree (b : nat)
| EvStderr (s : string)
| EvExec (path : string) (argv : list string).

Record Proc : Type := {
  heap : gmap nat string;   (* live malloc'd blocks holding C strings *)
  errno : errno_t;
  stderr : string;          (* what has been written to the error stream *)
  log : list event
}.

Definition proc_start (h0 : gmap nat string) : Proc :=
  {| heap := h0; errno := 0; stderr := ""; log := [] |}.

(** ** Computations of the process *)

Inductive Res (A : Type) : Type :=
| Val (a : A)      (* the call returned *)
| Replaced         (* the process image was replaced: nothing follows *)
| Fault.           (* undefined behaviour: a freed or unallocated block *)
Arguments Val {A} a.
Arguments Replaced {A}.
Arguments Fault {A}.

Definition M (A : Type) : Type := Proc -> Res A * Proc.

Definition ret {A} (a : A) : M A := fun st => (Val a, st).

Definition bind {A B} (m : M A) (k : A -> M B) : M B := fun st =>
  match m st with
  | (Val a, st') => k a st'
  | (Replaced, st') => (Replaced, st')
  | (Fault, st') => (Fault, st')
  end.

Declare Scope proc_scope.
Delimit Scope proc_scope with proc.
Notation "x <- m ;; k" := (bind m (fun x => k))
  (at level 100, m at next level, right associativity) : proc_scope.
Notation "m ;; k" := (bind m (fun _ => k))
  (at level 100, right associativity) : proc_scope.

Definition set_heap (h : gmap nat string) (st : Proc) : Proc :=
  {| heap := h; errno := errno st; stderr := stderr st; log := log st |}.
Definition set_errno (e : errno_t) (st : Proc) : Proc :=
  {| heap := heap st; errno := e; stderr := stderr st; log := log st |}.
Definition emit (ev : event) (st : Proc) : Proc :=
  {| heap := heap st; errno := errno st; stderr := stderr st;
     log := log st ++ [ev] |}.
Definition write_stderr (s : string) (st : Proc) : Proc :=
  {| heap := heap st; errno := errno st; stderr := stderr st +:+ s;
     log := log st ++ [EvStderr s] |}.

Section Launcher.

Variable w : World.

(** [_NSGetExecutablePath(buf, &size)], <mach-o/dyld.h>: copies the image
    path into the buffer and returns 0, or returns -1 when the path and
    its terminator do not fit in [bufsize] bytes.  The second component
    is the buffer afterwards, which only means something on success. *)
Definition _NSGetExecutablePath (bufsize : Z) : Z * string :=
  if Z.of_nat (String.length (image_path w)) + 1 <=? bufsize
  then (0, image_path w)
  else (-1, EmptyString).

(** [realpath(path, NULL)]: a fresh malloc'd block holding the resolved
    path, or the null pointer with [errno] set. *)
Definition realpath (path : string) : M (option nat) := fun st =>
  match fs_realpath w path with
  | Err e => (Val None, set_errno e st)
  | Ok r =>
      let b := fresh (dom (heap st)) in
      (Val (Some b), emit (EvAlloc b r) (set_heap (<[b := r]> (heap st)) st))
  end.

(** Reading the C string a pointer refers to. *)
Definition load (b : nat) : M string := fun st =>
  match heap st !! b with
  | Some s => (Val s, st)
  | None => (Fault, st)
  end.

(** [dirname(p)] for a pointer into the heap. *)
Definition dirname (b : nat) : M string :=
  (s <- load b ;; ret (CStr.dirname s))%proc.

Definition free (b : nat) : M unit := fun st =>
  match heap st !! b with
  | Some _ => (Val tt, emit (EvFree b) (set_heap (delete b (heap st)) st))
  | None => (Fault, st)
  end.

(** [fprintf(stderr, msg)] for a format without conversions. *)
Definition fprintf_stderr (msg : string) : M unit := fun st =>
  (Val tt, write_stderr msg st).

Definition perror (s : string) : M unit := fun st =>
  (Val tt, write_stderr (CStr.perror_text s (strerror w (errno st))) st).

(** [execl(path, arg0, ..., NULL)]: does not return when it succeeds,
    returns -1 with [errno] set when it fails. *)
Definition execl (path : string) (argv : list string) : M Z := fun st =>
  match sys_execve w path argv with
  | None => (Replaced, emit (EvExec path argv) st)
  | Some e => (Val (-1), set_errno e (emit (EvExec path argv) st))
  end.

(** [main], statement by statement. *)
Definition main (argc : Z) (argv : list string) : M Z :=
  (let size := 4096 in
   let '(rc, exe_path) := _NSGetExecutablePath size in
   if negb (rc =? 0) then
     fprintf_stderr ("Error: Could not determine executable path" +:+ CStr.nl) ;;
     ret 1
   else
     real <- realpath exe_path ;;
     match real with
     | None =>
         fprintf_stderr ("Error: Could not resolve path" +:+ CStr.nl) ;;
         ret 1
     | Some real =>
         dir <- dirname real ;;
         let script_path := CStr.snprintf EmptyString 4096 (CStr.fmt_script dir) in
         free real ;;
         execl "/bin/bash" ["bash"%string; script_path] ;;
         perror "Failed to launch" ;;
         ret 1
     end)%proc.

(** A run of the program from a fresh process with heap [h0]. *)
Definition run (h0 : gmap nat string) (argc : Z) (argv : list string) : Res Z * Proc :=
  main argc argv (proc_start h0).

End Launcher.

(** The script path [main] composes from a resolved executable path. *)
Definition script_path_of (r : string) : string :=
  CStr.snprintf EmptyString 4096 (CStr.fmt_script (CStr.dirname r)).

(** The [exec] calls of a log, in order. *)
Fixpoint exec_calls (l : list event) : list (string * list string) :=
  match l with
  | [] => []
  | EvExec p a :: l' => (p, a) :: exec_calls l'
  | _ :: l' => exec_calls l'
  end.

(** ** Concrete machines *)

Definition posix_strerror (e : errno_t) : string :=
  if e =? ENOENT then "No such file or directory"
  else if e =? EACCES then "Permission denied"
  else "Unknown error".

Definition mem_path (p : string) (files : list string) : bool :=
  existsb (String.eqb p) files.

Fixpoint link_target (links : list (string * string)) (p : string) : option string :=
  match links with
  | [] => None
  | (l, t) :: rest => if String.eqb l p then Some t else link_target rest p
  end.

(** A machine with the given files and symbolic links (a link and its
    resolved target): [realpath] follows a link and fails with [ENOENT] on
    a missing file, [execve] succeeds on a file that exists. *)
Definition mk_world (img : string) (files : list string)
    (links : list (string * string)) : World :=
  {| image_path := img;
     fs_realpath := fun p =>
       let t := match link_target links p with Some t => t | None => p end in
       if mem_path t files then Ok t else Err ENOENT;
     fs_exists := fun p =>
       mem_path p files
       || match link_target links p with Some _ => true | None => false end;
     sys_execve := fun p _ => if mem_path p files then None else Some ENOENT;
     strerror := posix_strerror |}.

Fixpoint repeat_char (n : nat) (c : ascii) : string :=
  match n with
  | O => EmptyString
  | S n' => String c (repeat_char n' c)
  end.

Definition exe_foo : string := "/Apps/Foo.app/Contents/MacOS/Foo".
Definition launcher_foo : string := "/Apps/Foo.app/Contents/MacOS/launcher.sh".

(** The installation of the specification's scenario. *)
Definition w_foo : World :=
  mk_world exe_foo [exe_foo; launcher_foo; "/bin/bash"%string] [].

(** The same without [launcher.sh]. *)
Definition w_absent : World :=
  mk_world exe_foo [exe_foo; "/bin/bash"%string] [].

(** The same on a host without [/bin/bash]. *)
Definition w_nobash : World :=
  mk_world exe_foo [exe_foo; launcher_foo] [].

(** The executable started through a symbolic link in another directory. *)
Definition w_link : World :=
  mk_world "/usr/local/bin/whisk" [exe_foo; launcher_foo; "/bin/bash"%string]
    [("/usr/local/bin/whisk"%string, exe_foo)].

(** The image path names no file any more. *)
Definition w_gone : World :=
  mk_world exe_foo ["/bin/bash"%string] [].

(** An image path of 4096 bytes, one more than the buffer holds. *)
Definition exe_huge : string := "/" +:+ repeat_char 4095 "a".
Definition w_huge : World :=
  mk_world exe_huge [exe_huge; "/bin/bash"%string] [].


(** ** Predicates the statements use *)

(** Self-location succeeds and yields the resolved path [r]. *)
Definition resolves (w : World) (r : string) : Prop :=
  fst (_NSGetExecutablePath w 4096) = 0
  /\ fs_realpath w (snd (_NSGetExecutablePath w 4096)) = Ok r.

Definition mem_block (b : nat) (live : list nat) : bool :=
  existsb (Nat.eqb b) live.

Fixpoint remove_block (b : nat) (live : list nat) : list nat :=
  match live with
  | [] => []
  | x :: rest => if Nat.eqb b x then rest else x :: remove_block b rest
  end.

(** The allocation discipline of a log, given the blocks live before it:
    a block is allocated only when it is not live, freed only when it is
    live, and no block is live at an [exec] call or when the log ends. *)
Fixpoint heap_discipline (live : list nat) (l : list event) : bool :=
  match l with
  | [] => match live with [] => true | _ => false end
  | EvAlloc b _ :: l' => negb (mem_block b live) && heap_discipline (b :: live) l'
  | EvFree b :: l' => mem_block b live && heap_discipline (remove_block b live) l'
  | EvExec _ _ :: l' =>
      match live with [] => heap_discipline live l' | _ => false end
  | EvStderr _ :: l' => heap_discipline live l'
  end.

(** How often a block is allocated and freed in a log. *)
Fixpoint count_alloc (b : nat) (l : list event) : nat :=
  match l with
  | [] => 0
  | EvAlloc b' _ :: l' => (if Nat.eqb b b' then 1 else 0) + count_alloc b l'
  | _ :: l' => count_alloc b l'
  end.

Fixpoint count_free (b : nat) (l : list event) : nat :=
  match l with
  | [] => 0
  | EvFree b' :: l' => (if Nat.eqb b b' then 1 else 0) + count_free b l'
  | _ :: l' => count_free b l'
  end.

(** The diagnostics written to the error stream, in order. *)
Fixpoint diagnostics (l : list event) : list string :=
  match l with
  | [] => []
  | EvStderr s :: l' => s :: diagnostics l'
  | _ :: l' => diagnostics l'
  end.

Definition msg_no_path : string :=
  "Error: Could not determine executable path" +:+ CStr.nl.
Definition msg_no_realpath : string :=
  "Error: Could not resolve path" +:+ CStr.nl.

(** The argument vector [main] passes for a script path. *)
Definition bash_argv (script : string) : list string := ["bash"%string; script].

(** Whether a string has no ['/'], and whether it is non-empty with a
    last byte other than ['/']. *)
Fixpoint no_slash (s : string) : bool :=
  match s with
  | EmptyString => true
  | String c t => negb (CStr.is_slash c) && no_slash t
  end.

Fixpoint ends_in_nonslash (s : string) : bool :=
  match s with
  | EmptyString => false
  | String c EmptyString => negb (CStr.is_slash c)
  | String _ t => ends_in_nonslash t
  end.

(** Whether a log stops at the first [exec] call that succeeds. *)
Fixpoint stops_at_exec (w : World) (l : list event) : bool :=
  match l with
  | [] => true
  | EvExec p a :: l' =>
      match sys_execve w p a with
      | None => match l' with [] => true | _ => false end
      | Some _ => stops_at_exec w l'
      end
  | _ :: l' => stops_at_exec w l'
  end.

(** Whether some [exec] call of a log succeeds. *)
Definition some_exec_succeeds (w : World) (l : list event) : bool :=
  existsb (fun c => match sys_execve w (fst c) (snd c) with
                    | None => true
                    | Some _ => false
                    end) (exec_calls l).

Definition is_replaced {A} (res : Res A) : bool :=
  match res with Replaced => true | _ => false end.

(** Whether a path is absolute. *)
Definition starts_with_slash (s : string) : bool :=
  match s with
  | EmptyString => false
  | String c _ => CStr.is_slash c
  end.

(** The steps of [main] that can fail. *)
Inductive failure : Type :=
| NoExecutablePath    (* _NSGetExecutablePath returned non-zero *)
| NoRealPath          (* realpath returned the null pointer *)
| ExecFailed.         (* execl returned *)

(** The step at which a machine makes the program fail, if any. *)
Definition failing_step (w : World) : option failure :=
  if negb (fst (_NSGetExecutablePath w 4096) =? 0) then Some NoExecutablePath
  else
    match fs_realpath w (snd (_NSGetExecutablePath w 4096)) with
    | Err _ => Some NoRealPath
    | Ok r =>
        match sys_execve w "/bin/bash" (bash_argv (script_path_of r)) with
        | Some _ => Some ExecFailed
        | None => None
        end
    end.

(** Whether [p] is an initial part of [s]. *)
Fixpoint has_prefix (p s : string) : bool :=
  match p, s with
  | EmptyString, _ => true
  | String _ _, EmptyString => false
  | String a p', String b s' => Ascii.eqb a b && has_prefix p' s'
  end.

(** What a reader of the error stream learns from it. *)
Definition diagnosed (err : string) : option failure :=
  if String.eqb err msg_no_path then Some NoExecutablePath
  else if String.eqb err msg_no_realpath then Some NoRealPath
  else if has_prefix "Failed to launch: " err then Some ExecFailed
  else None.

(** An [exec] call of the shape [main] is written to make: of [/bin/bash],
    with [bash] and one more argument that fits the 4096-byte buffer
    together with its terminator. *)
Definition call_well_formed (c : string * list string) : bool :=
  String.eqb (fst c) "/bin/bash"
  && match snd c with
     | [a0; script] =>
         String.eqb a0 "bash" && (String.length script <=? 4095)%nat
     | _ => false
     end.

(** An executable directly in the root directory. *)
Definition w_root : World :=
  mk_world "/Foo" ["/Foo"%string; "//launcher.sh"%string; "/bin/bash"%string] [].

(** [PATH_MAX] of the platform the program is built for (Darwin's
    <sys/syslimits.h>): [realpath] returns no path that does not fit
    [PATH_MAX] bytes with its terminator, it fails with [ENAMETOOLONG]. *)
Definition PATH_MAX : nat := 1024.

(** The blocks a log allocates and the blocks it frees, in order. *)
Fixpoint allocs (l : list event) : list nat :=
  match l with
  | [] => []
  | EvAlloc b _ :: l' => b :: allocs l'
  | _ :: l' => allocs l'
  end.

Fixpoint frees (l : list event) : list nat :=
  match l with
  | [] => []
  | EvFree b :: l' => b :: frees l'
  | _ :: l' => frees l'
  end.

(** * Properties *)

Example dirname_scenario :
  CStr.dirname "/Apps/Foo.app/Contents/MacOS/Foo" = "/Apps/Foo.app/Contents/MacOS"%string
  /\ CStr.dirname "/Foo" = "/"%string /\ CStr.dirname "Foo" = "."%string
  /\ CStr.dirname "/a//b/" = "/a"%string /\ CStr.dirname "///" = "/"%string
  /\ CStr.dirname "" = "."%string.
Proof. repeat split; reflexivity. Qed.

(** ** C strings *)


Lemma str_take_all (n : nat) (s : string) :
  (String.length s <= n)%nat -> CStr.str_take n s = s.
Proof.
  revert s. induction n as [|n IH]; intros [|c t] H; simpl in *;
    try reflexivity; try lia.
  rewrite IH; [reflexivity | lia].
Qed.

Lemma length_fmt_script (dir : string) :
  String.length (CStr.fmt_script dir) = (String.length dir + 12)%nat.
Proof.
  unfold CStr.fmt_script. induction dir as [|c t IH]; simpl.
  - reflexivity.
  - now rewrite IH.
Qed.

Lemma script_path_of_fits (r : string) :
  (String.length (CStr.dirname r) + 12 <= 4095)%nat ->
  script_path_of r = CStr.fmt_script (CStr.dirname r).
Proof.
  intros H. unfold script_path_of, CStr.snprintf.
  apply str_take_all. rewrite length_fmt_script. exact H.
Qed.


(** *** [dirname] gives the parent directory *)

Lemma is_empty_true (s : string) : CStr.is_empty s = true -> s = ""%string.
Proof. destruct s; [reflexivity | discriminate]. Qed.

Lemma ends_in_nonslash_nonempty (s : string) :
  ends_in_nonslash s = true -> CStr.is_empty s = false.
Proof. destruct s; [discriminate | reflexivity]. Qed.

Lemma append_cons (c : ascii) (t s : string) :
  (String c t +:+ s)%string = String c (t +:+ s).
Proof. reflexivity. Qed.

Lemma append_empty_l (s : string) : ("" +:+ s)%string = s.
Proof. reflexivity. Qed.

Lemma strip_trailing_slashes_cons (c : ascii) (t : string) :
  CStr.strip_trailing_slashes (String c t)
  = if CStr.is_slash c && CStr.is_empty (CStr.strip_trailing_slashes t)
    then ""%string
    else String c (CStr.strip_trailing_slashes t).
Proof. reflexivity. Qed.

Lemma strip_trailing_nonslashes_cons (c : ascii) (t : string) :
  CStr.strip_trailing_nonslashes (String c t)
  = if negb (CStr.is_slash c) && CStr.is_empty (CStr.strip_trailing_nonslashes t)
    then ""%string
    else String c (CStr.strip_trailing_nonslashes t).
Proof. reflexivity. Qed.

Lemma strip_trailing_slashes_fixed (s : string) :
  ends_in_nonslash s = true -> CStr.strip_trailing_slashes s = s.
Proof.
  induction s as [|c t IH]; [discriminate |].
  rewrite strip_trailing_slashes_cons.
  destruct t as [|c' t'].
  - simpl. intros H. destruct (CStr.is_slash c); [discriminate | reflexivity].
  - intros H. change (ends_in_nonslash (String c' t') = true) in H.
    rewrite (IH H). cbn [CStr.is_empty]. now rewrite andb_false_r.
Qed.

Lemma strip_trailing_slashes_separator (d : string) :
  ends_in_nonslash d = true -> CStr.strip_trailing_slashes (d +:+ "/") = d.
Proof.
  induction d as [|c t IH]; [discriminate |].
  rewrite append_cons, strip_trailing_slashes_cons.
  destruct t as [|c' t'].
  - intros H. simpl in H. rewrite append_empty_l. cbn.
    destruct (CStr.is_slash c); [discriminate | reflexivity].
  - intros H. change (ends_in_nonslash (String c' t') = true) in H.
    rewrite (IH H). cbn [CStr.is_empty]. now rewrite andb_false_r.
Qed.

Lemma strip_trailing_nonslashes_all (f : string) :
  no_slash f = true -> CStr.strip_trailing_nonslashes f = ""%string.
Proof.
  induction f as [|c t IH]; [reflexivity |].
  rewrite strip_trailing_nonslashes_cons.
  simpl. intros H. apply andb_prop in H as [Hc Ht].
  rewrite (IH Ht), Hc. reflexivity.
Qed.

Lemma strip_trailing_nonslashes_last (d f : string) :
  no_slash f = true ->
  CStr.strip_trailing_nonslashes (d +:+ "/" +:+ f) = (d +:+ "/")%string.
Proof.
  intros Hf. induction d as [|c t IH].
  - rewrite !append_empty_l, append_cons, append_empty_l.
    rewrite strip_trailing_nonslashes_cons.
    now rewrite (strip_trailing_nonslashes_all f Hf).
  - rewrite !(append_cons c t), strip_trailing_nonslashes_cons, IH.
    destruct t; [rewrite append_empty_l | rewrite append_cons];
      cbn [CStr.is_empty]; now rewrite andb_false_r.
Qed.

Lemma ends_in_nonslash_app (d f : string) :
  ends_in_nonslash f = true -> ends_in_nonslash (d +:+ f) = true.
Proof.
  intros Hf. induction d as [|c t IH]; [exact Hf |].
  rewrite append_cons. destruct (t +:+ f)%string eqn:E; [discriminate IH | exact IH].
Qed.

Lemma no_slash_ends_in_nonslash (f : string) :
  no_slash f = true -> CStr.is_empty f = false -> ends_in_nonslash f = true.
Proof.
  induction f as [|c t IH]; [discriminate |].
  simpl. intros H _. apply andb_prop in H as [Hc Ht].
  destruct t as [|c' t']; [exact Hc |].
  apply (IH Ht). reflexivity.
Qed.

(** The parent directory of [d/f], for a directory [d] that does not end
    in a slash and a file name [f]. *)
Lemma dirname_of_file_in (d f : string) :
  ends_in_nonslash d = true ->
  no_slash f = true ->
  CStr.is_empty f = false ->
  CStr.dirname (d +:+ "/" +:+ f) = d.
Proof.
  intros Hd Hf Hne.
  assert (Hend : ends_in_nonslash (d +:+ "/" +:+ f) = true).
  { apply ends_in_nonslash_app.
    change ("/" +:+ f)%string with (String "/" f).
    destruct f as [|c t]; [discriminate |].
    apply (no_slash_ends_in_nonslash (String c t) Hf Hne). }
  unfold CStr.dirname.
  rewrite (ends_in_nonslash_nonempty _ Hend).
  rewrite (strip_trailing_slashes_fixed _ Hend).
  rewrite (ends_in_nonslash_nonempty _ Hend).
  rewrite (strip_trailing_nonslashes_last d f Hf).
  rewrite (strip_trailing_slashes_separator d Hd).
  rewrite (ends_in_nonslash_nonempty d Hd).
  destruct d; [discriminate | reflexivity].
Qed.

(** The parent directory of a file in the root directory. *)
Lemma dirname_of_file_in_root (f : string) :
  no_slash f = true ->
  CStr.is_empty f = false ->
  CStr.dirname ("/" +:+ f) = "/"%string.
Proof.
  intros Hf Hne.
  assert (Hend : ends_in_nonslash ("/" +:+ f) = true).
  { change ("/" +:+ f)%string with (String "/" f).
    destruct f as [|c t]; [discriminate |].
    apply (no_slash_ends_in_nonslash (String c t) Hf Hne). }
  unfold CStr.dirname.
  rewrite (strip_trailing_slashes_fixed _ Hend).
  rewrite (ends_in_nonslash_nonempty _ Hend).
  change ("/" +:+ f)%string with ("" +:+ "/" +:+ f)%string.
  rewrite (strip_trailing_nonslashes_last "" f Hf).
  reflexivity.
Qed.

Example dirname_of_exe_foo :
  CStr.dirname exe_foo = "/Apps/Foo.app/Contents/MacOS"%string.
Proof.
  apply (dirname_of_file_in "/Apps/Foo.app/Contents/MacOS" "Foo"); reflexivity.
Qed.


Lemma length_strip_trailing_slashes (s : string) :
  (String.length (CStr.strip_trailing_slashes s) <= String.length s)%nat.
Proof.
  induction s as [|c t IH]; [reflexivity |].
  rewrite strip_trailing_slashes_cons.
  destruct (CStr.is_slash c && CStr.is_empty (CStr.strip_trailing_slashes t));
    simpl; lia.
Qed.

Lemma length_strip_trailing_nonslashes (s : string) :
  (String.length (CStr.strip_trailing_nonslashes s) <= String.length s)%nat.
Proof.
  induction s as [|c t IH]; [reflexivity |].
  rewrite strip_trailing_nonslashes_cons.
  destruct (negb (CStr.is_slash c)
            && CStr.is_empty (CStr.strip_trailing_nonslashes t));
    simpl; lia.
Qed.

(** A parent directory is no longer than the path, one byte at least. *)
Lemma length_dirname (r : string) :
  (String.length (CStr.dirname r) <= Nat.max 1 (String.length r))%nat.
Proof.
  unfold CStr.dirname.
  pose proof (length_strip_trailing_slashes r) as H1.
  pose proof (length_strip_trailing_nonslashes (CStr.strip_trailing_slashes r)) as H2.
  pose proof (length_strip_trailing_slashes
                (CStr.strip_trailing_nonslashes (CStr.strip_trailing_slashes r))) as H3.
  destruct (CStr.is_empty r); [simpl; lia |].
  destruct (CStr.is_empty (CStr.strip_trailing_slashes r)); [simpl; lia |].
  destruct (CStr.is_empty
              (CStr.strip_trailing_nonslashes (CStr.strip_trailing_slashes r)));
    [simpl; lia |].
  destruct (CStr.is_empty
              (CStr.strip_trailing_slashes
                 (CStr.strip_trailing_nonslashes (CStr.strip_trailing_slashes r))));
    [simpl; lia | lia].
Qed.

(** A path [realpath] can return leaves room for [/launcher.sh]. *)
Lemma script_path_of_resolved (r : string) :
  (String.length r < PATH_MAX)%nat ->
  script_path_of r = (CStr.dirname r +:+ "/launcher.sh")%string.
Proof.
  intros H. apply script_path_of_fits.
  pose proof (length_dirname r) as Hd. unfold PATH_MAX in H. lia.
Qed.

(** ** The three ways a run goes *)

Arguments CStr.snprintf : simpl never.
Arguments script_path_of : simpl never.

Section Runs.

Variable w : World.
Variables (h0 : gmap nat string) (argc : Z) (argv : list string).

Lemma run_no_path :
  fst (_NSGetExecutablePath w 4096) <> 0 ->
  run w h0 argc argv = (Val 1, write_stderr msg_no_path (proc_start h0)).
Proof.
  intros H. unfold run, main.
  destruct (_NSGetExecutablePath w 4096) as [rc exe_path]; simpl in H.
  apply Z.eqb_neq in H. rewrite H. reflexivity.
Qed.

Lemma run_no_realpath (e : errno_t) :
  fst (_NSGetExecutablePath w 4096) = 0 ->
  fs_realpath w (snd (_NSGetExecutablePath w 4096)) = Err e ->
  run w h0 argc argv
  = (Val 1, write_stderr msg_no_realpath (set_errno e (proc_start h0))).
Proof.
  intros H1 H2. unfold run, main.
  destruct (_NSGetExecutablePath w 4096) as [rc exe_path]; simpl in H1, H2.
  subst rc. simpl. unfold bind, realpath. rewrite H2. reflexivity.
Qed.

Lemma run_resolved (r : string) :
  resolves w r ->
  let b := fresh (dom h0) in
  let script := script_path_of r in
  let called := [EvAlloc b r; EvFree b; EvExec "/bin/bash" (bash_argv script)] in
  run w h0 argc argv =
  match sys_execve w "/bin/bash" (bash_argv script) with
  | None =>
      (Replaced, {| heap := h0; errno := 0; stderr := ""; log := called |})
  | Some e =>
      let text := CStr.perror_text "Failed to launch" (strerror w e) in
      (Val 1, {| heap := h0; errno := e; stderr := text;
                 log := called ++ [EvStderr text] |})
  end.
Proof.
  intros [H1 H2] b script called. unfold run, main.
  destruct (_NSGetExecutablePath w 4096) as [rc exe_path]; simpl in H1, H2.
  subst rc. simpl.
  assert (Hb : h0 !! b = None) by (apply not_elem_of_dom, is_fresh).
  unfold bind at 1. unfold realpath. rewrite H2. simpl.
  fold b. unfold bind, dirname, load, free, execl, perror, ret, bind. simpl.
  rewrite lookup_insert_eq. simpl. rewrite lookup_insert_eq. simpl.
  rewrite (delete_insert_id _ _ _ Hb).
  fold (script_path_of r). fold script. fold (bash_argv script).
  destruct (sys_execve w "/bin/bash" (bash_argv script)) as [e|]; reflexivity.
Qed.

End Runs.

Lemma perror_text_nonempty (s reason : string) :
  CStr.perror_text ("Failed to launch" +:+ s) reason <> ""%string.
Proof. discriminate. Qed.

(** ** What is passed to the shell *)

(** C1.  On a valid installation, where the executable's path resolves
    to [r], a path [realpath] can return on the platform, and [launcher.sh]
    lies beside it, the program makes one [exec] call: of [/bin/bash], with
    the arguments [bash] and one script path, the parent directory of [r]
    followed by [/launcher.sh]. *)
Theorem shell_invoked_with_sibling_script
    (w : World) (h0 : gmap nat string) (argc : Z) (argv : list string) (r : string) :
  resolves w r ->
  (String.length r < PATH_MAX)%nat ->
  fs_exists w (CStr.dirname r +:+ "/launcher.sh") = true ->
  exec_calls (log (snd (run w h0 argc argv)))
  = [("/bin/bash"%string,
      ["bash"%string; (CStr.dirname r +:+ "/launcher.sh")%string])].
Proof.
  intros Hr Hlen _.
  rewrite (run_resolved w h0 argc argv r Hr).
  rewrite (script_path_of_resolved r Hlen).
  destruct (sys_execve w "/bin/bash"
              (bash_argv (CStr.dirname r +:+ "/launcher.sh")));
    reflexivity.
Qed.

Lemma shell_invoked_with_sibling_script_witness :
  resolves w_foo exe_foo
  /\ (String.length exe_foo < PATH_MAX)%nat
  /\ fs_exists w_foo (CStr.dirname exe_foo +:+ "/launcher.sh") = true
  /\ exec_calls (log (snd (run w_foo ∅ 1 ["Foo"%string])))
     = [("/bin/bash"%string, ["bash"%string; launcher_foo])].
Proof.
  assert (Hr : resolves w_foo exe_foo) by (split; reflexivity).
  assert (Hl : (String.length exe_foo < PATH_MAX)%nat)
    by (apply Nat.ltb_lt; vm_compute; reflexivity).
  assert (He : fs_exists w_foo (CStr.dirname exe_foo +:+ "/launcher.sh") = true)
    by reflexivity.
  split; [exact Hr | split; [exact Hl | split; [exact He |]]].
  exact (shell_invoked_with_sibling_script w_foo ∅ 1 ["Foo"%string] exe_foo Hr Hl He).
Defined.

(** C2, as it holds.  When the executable's path resolves and no
    [launcher.sh] exists at the composed path, the program still calls
    [exec] on [/bin/bash] with that path.  It returns 1 after a non-empty
    diagnostic when that call fails; when the call succeeds the process
    image is replaced and the program has written nothing. *)
Theorem missing_script_still_execs
    (w : World) (h0 : gmap nat string) (argc : Z) (argv : list string) (r : string) :
  resolves w r ->
  fs_exists w (script_path_of r) = false ->
  exec_calls (log (snd (run w h0 argc argv)))
  = [("/bin/bash"%string, bash_argv (script_path_of r))]
  /\ match sys_execve w "/bin/bash" (bash_argv (script_path_of r)) with
     | Some e =>
         fst (run w h0 argc argv) = Val 1
         /\ stderr (snd (run w h0 argc argv))
            = CStr.perror_text "Failed to launch" (strerror w e)
         /\ stderr (snd (run w h0 argc argv)) <> ""%string
     | None =>
         fst (run w h0 argc argv) = Replaced
         /\ stderr (snd (run w h0 argc argv)) = ""%string
     end.
Proof.
  intros Hr _. rewrite (run_resolved w h0 argc argv r Hr).
  destruct (sys_execve w "/bin/bash" (bash_argv (script_path_of r))) as [e|];
    simpl; repeat split; try reflexivity.
  apply (perror_text_nonempty "").
Qed.

Lemma missing_script_still_execs_witness :
  resolves w_absent exe_foo
  /\ fs_exists w_absent (script_path_of exe_foo) = false
  /\ exec_calls (log (snd (run w_absent ∅ 1 ["Foo"%string])))
     = [("/bin/bash"%string, bash_argv (script_path_of exe_foo))]
  /\ fst (run w_absent ∅ 1 ["Foo"%string]) = Replaced
  /\ stderr (snd (run w_absent ∅ 1 ["Foo"%string])) = ""%string.
Proof.
  assert (Hr : resolves w_absent exe_foo) by (split; reflexivity).
  assert (He : fs_exists w_absent (script_path_of exe_foo) = false)
    by (vm_compute; reflexivity).
  split; [exact Hr | split; [exact He |]].
  pose proof (missing_script_still_execs w_absent ∅ 1 ["Foo"%string] exe_foo Hr He)
    as [H1 H2].
  split; [exact H1 | exact H2].
Defined.

(** C2, as stated, fails: on [w_absent] the path resolves and there is no
    [launcher.sh], [/bin/bash] is there, and the program neither returns 1
    nor writes a diagnostic. *)
Lemma missing_script_no_exit_status_1 :
  resolves w_absent exe_foo
  /\ fs_exists w_absent (script_path_of exe_foo) = false
  /\ ~ (fst (run w_absent ∅ 1 ["Foo"%string]) = Val 1
        /\ stderr (snd (run w_absent ∅ 1 ["Foo"%string])) <> ""%string).
Proof.
  split; [split; reflexivity | split; [vm_compute; reflexivity |]].
  intros [H _]. vm_compute in H. discriminate H.
Qed.

(** C3.  The script path is composed from the parent directory of the
    path [realpath] returned, whatever path the executable was started
    through: two machines that report different paths for the executable,
    both resolving to [r], make the same [exec] call, with the script path
    composed from [r]. *)
Theorem script_path_from_resolved_directory
    (w1 w2 : World) (h1 h2 : gmap nat string) (argc1 argc2 : Z)
    (argv1 argv2 : list string) (r : string) :
  resolves w1 r ->
  resolves w2 r ->
  exec_calls (log (snd (run w1 h1 argc1 argv1)))
  = [("/bin/bash"%string,
      ["bash"%string;
       CStr.snprintf EmptyString 4096 (CStr.dirname r +:+ "/launcher.sh")])]
  /\ exec_calls (log (snd (run w2 h2 argc2 argv2)))
     = exec_calls (log (snd (run w1 h1 argc1 argv1))).
Proof.
  intros H1 H2.
  rewrite (run_resolved w1 h1 argc1 argv1 r H1), (run_resolved w2 h2 argc2 argv2 r H2).
  destruct (sys_execve w1 "/bin/bash" (bash_argv (script_path_of r)));
    destruct (sys_execve w2 "/bin/bash" (bash_argv (script_path_of r)));
    split; reflexivity.
Qed.

Lemma script_path_from_resolved_directory_witness :
  resolves w_link exe_foo
  /\ resolves w_foo exe_foo
  /\ CStr.dirname (image_path w_link) = "/usr/local/bin"%string
  /\ exec_calls (log (snd (run w_link ∅ 1 ["whisk"%string])))
     = [("/bin/bash"%string, ["bash"%string; launcher_foo])]
  /\ exec_calls (log (snd (run w_foo ∅ 1 ["Foo"%string])))
     = exec_calls (log (snd (run w_link ∅ 1 ["whisk"%string]))).
Proof.
  assert (Hl : resolves w_link exe_foo) by (split; reflexivity).
  assert (Hf : resolves w_foo exe_foo) by (split; reflexivity).
  split; [exact Hl | split; [exact Hf | split; [reflexivity |]]].
  exact (script_path_from_resolved_directory
           w_link w_foo ∅ ∅ 1 1 ["whisk"%string] ["Foo"%string] exe_foo Hl Hf).
Defined.

(** ** Failures *)

(** C4.  When self-location fails, because the image path does not fit
    the buffer or because [realpath] fails on it, the program writes one
    diagnostic to the error stream and returns 1; that write is all it
    does: nothing is allocated, no [exec] call is made. *)
Theorem self_location_failure_is_fatal
    (w : World) (h0 : gmap nat string) (argc : Z) (argv : list string) :
  fst (_NSGetExecutablePath w 4096) <> 0
  \/ (exists e, fs_realpath w (snd (_NSGetExecutablePath w 4096)) = Err e) ->
  fst (run w h0 argc argv) = Val 1
  /\ stderr (snd (run w h0 argc argv)) <> ""%string
  /\ log (snd (run w h0 argc argv)) = [EvStderr (stderr (snd (run w h0 argc argv)))]
  /\ exec_calls (log (snd (run w h0 argc argv))) = []
  /\ heap (snd (run w h0 argc argv)) = h0.
Proof.
  intros H.
  destruct (Z.eq_dec (fst (_NSGetExecutablePath w 4096)) 0) as [Hrc|Hrc].
  - destruct H as [H|[e He]]; [contradiction |].
    rewrite (run_no_realpath w h0 argc argv e Hrc He).
    repeat split; discriminate.
  - rewrite (run_no_path w h0 argc argv Hrc).
    repeat split; discriminate.
Qed.

Lemma self_location_failure_is_fatal_witness :
  (fst (_NSGetExecutablePath w_huge 4096) <> 0
   /\ fst (run w_huge ∅ 1 ["Foo"%string]) = Val 1
   /\ stderr (snd (run w_huge ∅ 1 ["Foo"%string])) <> ""%string)
  /\ ((exists e, fs_realpath w_gone (snd (_NSGetExecutablePath w_gone 4096)) = Err e)
      /\ fst (run w_gone ∅ 1 ["Foo"%string]) = Val 1
      /\ stderr (snd (run w_gone ∅ 1 ["Foo"%string])) <> ""%string).
Proof.
  assert (Hh : fst (_NSGetExecutablePath w_huge 4096) <> 0)
    by (vm_compute; discriminate).
  assert (Hg : exists e, fs_realpath w_gone (snd (_NSGetExecutablePath w_gone 4096)) = Err e)
    by (exists ENOENT; reflexivity).
  split.
  - destruct (self_location_failure_is_fatal w_huge ∅ 1 ["Foo"%string] (or_introl Hh))
      as (H1 & H2 & _).
    split; [exact Hh | split; [exact H1 | exact H2]].
  - destruct (self_location_failure_is_fatal w_gone ∅ 1 ["Foo"%string] (or_intror Hg))
      as (H1 & H2 & _).
    split; [exact Hg | split; [exact H1 | exact H2]].
Defined.

(** C5.  When the [exec] call fails with error [e], it returns, and the
    program writes to the error stream the line
    [Failed to launch: <strerror e>] and returns 1. *)
Theorem exec_failure_is_reported
    (w : World) (h0 : gmap nat string) (argc : Z) (argv : list string)
    (r : string) (e : errno_t) :
  resolves w r ->
  sys_execve w "/bin/bash" ["bash"%string; script_path_of r] = Some e ->
  fst (run w h0 argc argv) = Val 1
  /\ stderr (snd (run w h0 argc argv))
     = ("Failed to launch: " +:+ strerror w e +:+ CStr.nl)%string
  /\ diagnostics (log (snd (run w h0 argc argv)))
     = [("Failed to launch: " +:+ strerror w e +:+ CStr.nl)%string]
  /\ last (log (snd (run w h0 argc argv)))
     = Some (EvStderr ("Failed to launch: " +:+ strerror w e +:+ CStr.nl)%string).
Proof.
  intros Hr He. rewrite (run_resolved w h0 argc argv r Hr).
  unfold bash_argv. rewrite He. repeat split.
Qed.

Lemma exec_failure_is_reported_witness :
  resolves w_nobash exe_foo
  /\ sys_execve w_nobash "/bin/bash" ["bash"%string; script_path_of exe_foo]
     = Some ENOENT
  /\ fst (run w_nobash ∅ 1 ["Foo"%string]) = Val 1
  /\ stderr (snd (run w_nobash ∅ 1 ["Foo"%string]))
     = ("Failed to launch: No such file or directory" +:+ CStr.nl)%string.
Proof.
  assert (Hr : resolves w_nobash exe_foo) by (split; reflexivity).
  assert (He : sys_execve w_nobash "/bin/bash" ["bash"%string; script_path_of exe_foo]
               = Some ENOENT) by reflexivity.
  split; [exact Hr | split; [exact He |]].
  destruct (exec_failure_is_reported w_nobash ∅ 1 ["Foo"%string] exe_foo ENOENT Hr He)
    as (H1 & H2 & _).
  split; [exact H1 | exact H2].
Defined.

(** ** Exit status and what is left behind *)

(** C6.  Whenever [main] returns, it returns 1, and the last thing it
    did was to write a non-empty diagnostic to the error stream; it never
    returns 0.  Otherwise the process image was replaced by an [exec] call
    that succeeded, and the program wrote nothing.  No run faults. *)
Theorem main_returns_only_1
    (w : World) (h0 : gmap nat string) (argc : Z) (argv : list string) :
  fst (run w h0 argc argv) <> Val 0
  /\ match run w h0 argc argv with
     | (Val status, st) =>
         status = 1
         /\ stderr st <> ""%string
         /\ last (log st) = Some (EvStderr (stderr st))
         /\ some_exec_succeeds w (log st) = false
     | (Replaced, st) =>
         stderr st = ""%string
         /\ some_exec_succeeds w (log st) = true
     | (Fault, _) => False
     end.
Proof.
  destruct (Z.eq_dec (fst (_NSGetExecutablePath w 4096)) 0) as [Hrc|Hrc].
  - destruct (fs_realpath w (snd (_NSGetExecutablePath w 4096))) as [r|e] eqn:Hreal.
    + rewrite (run_resolved w h0 argc argv r (conj Hrc Hreal)).
      destruct (sys_execve w "/bin/bash" (bash_argv (script_path_of r)))
        as [e|] eqn:He; simpl.
      * unfold some_exec_succeeds; simpl. fold (bash_argv (script_path_of r)).
        rewrite He. repeat split; discriminate.
      * unfold some_exec_succeeds; simpl. fold (bash_argv (script_path_of r)).
        rewrite He. repeat split; discriminate.
    + rewrite (run_no_realpath w h0 argc argv e Hrc Hreal).
      repeat split; discriminate.
  - rewrite (run_no_path w h0 argc argv Hrc).
    repeat split; discriminate.
Qed.

(** C7.  The log of a run stops at the [exec] call that succeeds, and a
    call succeeds exactly when the run ends with the process image
    replaced.  Every run either ends so, having written nothing, or
    returns 1 with the heap as it found it and exactly one diagnostic on
    the error stream. *)
Theorem nothing_runs_after_exec
    (w : World) (h0 : gmap nat string) (argc : Z) (argv : list string) :
  stops_at_exec w (log (snd (run w h0 argc argv))) = true
  /\ some_exec_succeeds w (log (snd (run w h0 argc argv)))
     = is_replaced (fst (run w h0 argc argv))
  /\ heap (snd (run w h0 argc argv)) = h0
  /\ ((fst (run w h0 argc argv) = Replaced
       /\ diagnostics (log (snd (run w h0 argc argv))) = []
       /\ stderr (snd (run w h0 argc argv)) = ""%string)
      \/ (fst (run w h0 argc argv) = Val 1
          /\ diagnostics (log (snd (run w h0 argc argv)))
             = [stderr (snd (run w h0 argc argv))])).
Proof.
  destruct (Z.eq_dec (fst (_NSGetExecutablePath w 4096)) 0) as [Hrc|Hrc].
  - destruct (fs_realpath w (snd (_NSGetExecutablePath w 4096))) as [r|e] eqn:Hreal.
    + rewrite (run_resolved w h0 argc argv r (conj Hrc Hreal)).
      destruct (sys_execve w "/bin/bash" (bash_argv (script_path_of r)))
        as [e|] eqn:He; unfold some_exec_succeeds; simpl;
        fold (bash_argv (script_path_of r)); rewrite He;
        repeat split; auto.
    + rewrite (run_no_realpath w h0 argc argv e Hrc Hreal).
      repeat split; auto.
  - rewrite (run_no_path w h0 argc argv Hrc).
    repeat split; auto.
Qed.

(** C8.  The run does not depend on the command line: with other
    [argc] and [argv] the program returns the same result in the same
    final state, so it makes the same [exec] call. *)
Theorem command_line_ignored
    (w : World) (h0 : gmap nat string) (argc argc' : Z) (argv argv' : list string) :
  run w h0 argc argv = run w h0 argc' argv'
  /\ (forall st : Proc, main w argc argv st = main w argc' argv' st).
Proof. split; reflexivity. Qed.

(** C9, as it holds.  After the path has been resolved the block
    [realpath] allocated is the one block the run allocates, and it is
    freed exactly once, right after it was allocated and before the
    [exec] call: the log starts with the allocation, the release and the
    call, whether the call then succeeds or fails, and the heap ends as it
    started.  When self-location fails nothing was allocated and nothing
    is released. *)
Theorem resolved_path_released_before_exec
    (w : World) (h0 : gmap nat string) (argc : Z) (argv : list string) :
  (forall r : string,
      resolves w r ->
      firstn 3 (log (snd (run w h0 argc argv)))
      = [EvAlloc (fresh (dom h0)) r; EvFree (fresh (dom h0));
         EvExec "/bin/bash" ["bash"%string; script_path_of r]]
      /\ allocs (log (snd (run w h0 argc argv))) = [fresh (dom h0)]
      /\ frees (log (snd (run w h0 argc argv))) = [fresh (dom h0)]
      /\ count_free (fresh (dom h0)) (log (snd (run w h0 argc argv))) = 1%nat
      /\ heap_discipline [] (log (snd (run w h0 argc argv))) = true
      /\ heap (snd (run w h0 argc argv)) = h0
      /\ fst (run w h0 argc argv) <> Fault)
  /\ (fst (_NSGetExecutablePath w 4096) <> 0
      \/ (exists e, fs_realpath w (snd (_NSGetExecutablePath w 4096)) = Err e) ->
      fst (run w h0 argc argv) = Val 1
      /\ allocs (log (snd (run w h0 argc argv))) = []
      /\ frees (log (snd (run w h0 argc argv))) = []
      /\ heap (snd (run w h0 argc argv)) = h0).
Proof.
  split.
  - intros r Hr. rewrite (run_resolved w h0 argc argv r Hr).
    destruct (sys_execve w "/bin/bash" (bash_argv (script_path_of r))) as [e|];
      cbn; rewrite Nat.eqb_refl; repeat split; discriminate.
  - intros H.
    destruct (Z.eq_dec (fst (_NSGetExecutablePath w 4096)) 0) as [Hrc|Hrc].
    + destruct H as [H|[e He]]; [contradiction |].
      rewrite (run_no_realpath w h0 argc argv e Hrc He). repeat split.
    + rewrite (run_no_path w h0 argc argv Hrc). repeat split.
Qed.

Lemma resolved_path_released_before_exec_witness :
  (resolves w_foo exe_foo
   /\ frees (log (snd (run w_foo ∅ 1 ["Foo"%string]))) = [fresh (dom (∅ : gmap nat string))]
   /\ count_free (fresh (dom (∅ : gmap nat string)))
        (log (snd (run w_foo ∅ 1 ["Foo"%string]))) = 1%nat)
  /\ ((exists e, fs_realpath w_gone (snd (_NSGetExecutablePath w_gone 4096)) = Err e)
      /\ frees (log (snd (run w_gone ∅ 1 ["Foo"%string]))) = []).
Proof.
  assert (Hr : resolves w_foo exe_foo) by (split; reflexivity).
  assert (Hg : exists e, fs_realpath w_gone (snd (_NSGetExecutablePath w_gone 4096)) = Err e)
    by (exists ENOENT; reflexivity).
  split.
  - destruct (proj1 (resolved_path_released_before_exec w_foo ∅ 1 ["Foo"%string])
                exe_foo Hr) as (_ & _ & H3 & H4 & _).
    split; [exact Hr | split; [exact H3 | exact H4]].
  - destruct (proj2 (resolved_path_released_before_exec w_gone ∅ 1 ["Foo"%string])
                (or_intror Hg)) as (_ & _ & H3 & _).
    split; [exact Hg | exact H3].
Defined.

(** C9, as stated, fails on the path-resolution error path: on [w_gone]
    [realpath] fails, the program returns 1, and it has released nothing,
    not one block. *)
Lemma no_release_when_resolution_fails :
  fs_realpath w_gone (snd (_NSGetExecutablePath w_gone 4096)) = Err ENOENT
  /\ fst (run w_gone ∅ 1 ["Foo"%string]) = Val 1
  /\ frees (log (snd (run w_gone ∅ 1 ["Foo"%string]))) = []
  /\ List.length (frees (log (snd (run w_gone ∅ 1 ["Foo"%string])))) <> 1%nat.
Proof.
  split; [reflexivity | split; [reflexivity | split; [reflexivity |]]].
  vm_compute. discriminate.
Qed.



(** ** Further properties of [main] *)

Lemma length_str_take_le (n : nat) (s : string) :
  (String.length (CStr.str_take n s) <= n)%nat.
Proof.
  revert s. induction n as [|n IH]; intros [|c t]; simpl; try lia.
  specialize (IH t). lia.
Qed.

Lemma length_script_path_of (r : string) :
  (String.length (script_path_of r) <=? 4095)%nat = true.
Proof. apply Nat.leb_le. apply length_str_take_le. Qed.

Lemma call_well_formed_bash (script : string) :
  call_well_formed ("/bin/bash"%string, bash_argv script)
  = (String.length script <=? 4095)%nat.
Proof. reflexivity. Qed.

(** The error stream tells which step failed: after any run it holds the
    first message exactly when [_NSGetExecutablePath] failed, the second
    exactly when [realpath] failed, a line starting [Failed to launch: ]
    exactly when [execl] failed, and none of these when the image was
    replaced. *)
Theorem diagnostic_identifies_failing_step
    (w : World) (h0 : gmap nat string) (argc : Z) (argv : list string) :
  diagnosed (stderr (snd (run w h0 argc argv))) = failing_step w.
Proof.
  unfold failing_step.
  destruct (Z.eq_dec (fst (_NSGetExecutablePath w 4096)) 0) as [Hrc|Hrc].
  - destruct (fs_realpath w (snd (_NSGetExecutablePath w 4096))) as [r|e] eqn:Hreal.
    + rewrite (run_resolved w h0 argc argv r (conj Hrc Hreal)), Hrc.
      destruct (sys_execve w "/bin/bash" (bash_argv (script_path_of r)));
        cbv zeta; cbn [snd stderr]; vm_compute; reflexivity.
    + rewrite (run_no_realpath w h0 argc argv e Hrc Hreal), Hrc. reflexivity.
  - rewrite (run_no_path w h0 argc argv Hrc).
    apply Z.eqb_neq in Hrc. rewrite Hrc. reflexivity.
Qed.

(** Every run makes at most one [exec] call, always of [/bin/bash] with
    the two arguments [bash] and a script path of at most 4095 bytes: the
    composed path never outgrows its buffer, and nothing of the program's
    own command line is passed on. *)
Theorem exec_call_shape
    (w : World) (h0 : gmap nat string) (argc : Z) (argv : list string) :
  forallb call_well_formed (exec_calls (log (snd (run w h0 argc argv)))) = true
  /\ (List.length (exec_calls (log (snd (run w h0 argc argv)))) <= 1)%nat.
Proof.
  destruct (Z.eq_dec (fst (_NSGetExecutablePath w 4096)) 0) as [Hrc|Hrc].
  - destruct (fs_realpath w (snd (_NSGetExecutablePath w 4096))) as [r|e] eqn:Hreal.
    + rewrite (run_resolved w h0 argc argv r (conj Hrc Hreal)).
      assert (Hc : forallb call_well_formed
                     [("/bin/bash"%string, bash_argv (script_path_of r))] = true).
      { cbn [forallb]. rewrite call_well_formed_bash, length_script_path_of.
        reflexivity. }
      destruct (sys_execve w "/bin/bash" (bash_argv (script_path_of r)));
        (split; [exact Hc | cbn; lia]).
    + rewrite (run_no_realpath w h0 argc argv e Hrc Hreal). cbn. split; [reflexivity | lia].
  - rewrite (run_no_path w h0 argc argv Hrc). cbn. split; [reflexivity | lia].
Qed.



(** For an executable directly in the root directory the parent directory
    is [/] and the composition is not adjusted: the shell is given
    [//launcher.sh], with two slashes. *)
Theorem script_path_in_root_directory
    (w : World) (h0 : gmap nat string) (argc : Z) (argv : list string) (f : string) :
  resolves w ("/" +:+ f) ->
  no_slash f = true ->
  CStr.is_empty f = false ->
  exec_calls (log (snd (run w h0 argc argv)))
  = [("/bin/bash"%string, ["bash"%string; "//launcher.sh"%string])].
Proof.
  intros Hr Hf Hne.
  rewrite (run_resolved w h0 argc argv _ Hr).
  assert (Hs : script_path_of ("/" +:+ f) = "//launcher.sh"%string).
  { rewrite script_path_of_fits;
      rewrite (dirname_of_file_in_root f Hf Hne); [reflexivity | cbn; lia]. }
  rewrite Hs.
  destruct (sys_execve w "/bin/bash" (bash_argv "//launcher.sh")); reflexivity.
Qed.

Lemma script_path_in_root_directory_witness :
  resolves w_root ("/" +:+ "Foo")
  /\ exec_calls (log (snd (run w_root ∅ 1 ["Foo"%string])))
     = [("/bin/bash"%string, ["bash"%string; "//launcher.sh"%string])].
Proof.
  assert (Hr : resolves w_root ("/" +:+ "Foo")) by (split; reflexivity).
  split; [exact Hr |].
  apply (script_path_in_root_directory w_root ∅ 1 ["Foo"%string] "Foo" Hr);
    reflexivity.
Defined.

Lemma strip_trailing_slashes_head (c : ascii) (t : string) :
  CStr.strip_trailing_slashes (String c t) = ""%string
  \/ exists t', CStr.strip_trailing_slashes (String c t) = String c t'.
Proof.
  rewrite strip_trailing_slashes_cons.
  destruct (CStr.is_slash c && CStr.is_empty (CStr.strip_trailing_slashes t));
    [left; reflexivity | right; eexists; reflexivity].
Qed.

Lemma strip_trailing_nonslashes_head (c : ascii) (t : string) :
  CStr.is_slash c = true ->
  exists t', CStr.strip_trailing_nonslashes (String c t) = String c t'.
Proof.
  intros Hc. rewrite strip_trailing_nonslashes_cons, Hc.
  eexists; reflexivity.
Qed.

(** The parent directory of an absolute path is absolute. *)
Lemma dirname_absolute (r : string) :
  starts_with_slash r = true -> starts_with_slash (CStr.dirname r) = true.
Proof.
  destruct r as [|c t]; [discriminate |]. simpl. intros Hc.
  unfold CStr.dirname. cbn [CStr.is_empty].
  destruct (strip_trailing_slashes_head c t) as [E|[t1 E]]; rewrite E;
    [reflexivity |].
  cbn [CStr.is_empty].
  destruct (strip_trailing_nonslashes_head c t1 Hc) as [t2 E2]. rewrite E2.
  cbn [CStr.is_empty].
  destruct (strip_trailing_slashes_head c t2) as [E3|[t3 E3]]; rewrite E3;
    [reflexivity | exact Hc].
Qed.

Lemma str_take_absolute (n : nat) (s t : string) :
  starts_with_slash s = true ->
  starts_with_slash (CStr.str_take (S n) (s +:+ t)) = true.
Proof.
  destruct s as [|c s']; [discriminate |]. intros Hc.
  rewrite append_cons. exact Hc.
Qed.

(** When the resolved path of the executable is absolute, as [realpath]
    promises, so is the script path given to the shell, truncated or not:
    the shell never looks the script up relative to the working
    directory. *)
Theorem script_path_absolute
    (w : World) (h0 : gmap nat string) (argc : Z) (argv : list string) (r : string) :
  resolves w r ->
  starts_with_slash r = true ->
  starts_with_slash (script_path_of r) = true
  /\ exec_calls (log (snd (run w h0 argc argv)))
     = [("/bin/bash"%string, ["bash"%string; script_path_of r])].
Proof.
  intros Hr Habs. split.
  - apply (str_take_absolute 4094 (CStr.dirname r) "/launcher.sh").
    apply (dirname_absolute r Habs).
  - rewrite (run_resolved w h0 argc argv r Hr).
    destruct (sys_execve w "/bin/bash" (bash_argv (script_path_of r)));
      reflexivity.
Qed.

Lemma script_path_absolute_witness :
  resolves w_link exe_foo
  /\ starts_with_slash exe_foo = true
  /\ starts_with_slash (script_path_of exe_foo) = true
  /\ exec_calls (log (snd (run w_link ∅ 1 ["whisk"%string])))
     = [("/bin/bash"%string, ["bash"%string; script_path_of exe_foo])].
Proof.
  assert (Hr : resolves w_link exe_foo) by (split; reflexivity).
  assert (Ha : starts_with_slash exe_foo = true) by reflexivity.
  split; [exact Hr | split; [exact Ha |]].
  exact (script_path_absolute w_link ∅ 1 ["whisk"%string] exe_foo Hr Ha).
Defined.
